(** * Titanic dashboard: the filter, the KPI metrics and the bar labels

    A shallow embedding of [dashboard.py].  The script is a Streamlit page:
    it loads a table of passengers once, reads three multiselect widgets,
    keeps the rows the widgets allow, derives four KPI numbers and draws
    count plots whose bars are annotated by [add_bar_labels].

    Conventions of the embedding.
    - A [DataFrame] is the list of its rows, in index order.
    - A cell of an object column ([sex], [embark_town]) is [Some s] for a
      string and [None] for a missing cell; a cell of a float column
      ([age], [fare]) is [Some q] or [None] (NaN).  The integer columns
      ([pclass], [family_size], [survived]) hold a [Z].
    - The metrics are idealised as exact rationals [Q]; a computed metric
      is a [number], which adds NaN.
    - Line 33 is modelled twice.  [bar_text64] evaluates it in IEEE 754
      double precision, as numpy does on the [float64] heights of a chart:
      it gives the text of the labels.  [bar_text] evaluates it over exact
      heights in a small monad that records every division it performs and
      treats a zero divisor as a failure, which is stricter than numpy
      (there [h / 0] is [inf]): it is used to show which divisions are
      attempted at all and how the chart is updated. *)

From Stdlib Require Import List ZArith QArith Qround Qabs Qpower Lia Lqa Bool.
From Stdlib Require Import SpecFloat.
From Stdlib Require Import String Ascii DecimalString.
From Stdlib Require Import Sorted Permutation.
Import ListNotations.

Local Open Scope Z_scope.

(** ** Data model *)

(** One row of [data/processed/titanic_processed.csv]. *)
Record passenger : Type := mkPassenger {
  sex : option string;
  pclass : Z;
  embark_town : option string;
  age : option Q;
  fare : option Q;
  family_size : Z;
  survived : Z
}.

Definition DataFrame : Type := list passenger.

(** A float as the script sees it: NaN or a value. *)
Inductive number : Type :=
| NaN : number
| Val : Q -> number.

(** The value of the three sidebar widgets. *)
Record selection : Type := mkSelection {
  gender_filter : list (option string);
  class_filter : list Z;
  embark_filter : list (option string)
}.

(** ** Columns, [unique], [sorted], [isin] *)

(** Equality of the cells of an object column, as [isin] and [unique]
    compare them: a missing cell matches a missing cell. *)
Definition cell_eqb (a b : option string) : bool :=
  match a, b with
  | Some x, Some y => String.eqb x y
  | None, None => true
  | _, _ => false
  end.

(** [df[name]]: the column as a series of cells. *)
Definition column {A : Type} (f : passenger -> A) (df : DataFrame) : list A :=
  map f df.

Section Series.
Context {A : Type}.
Variable eqb : A -> A -> bool.

(** [x in values], with the equality of the column's cells. *)
Definition member (x : A) (values : list A) : bool :=
  existsb (eqb x) values.

(** [Series.isin(values)]: a boolean series of the same length. *)
Definition isin (s : list A) (values : list A) : list bool :=
  map (fun x => member x values) s.

(** [Series.unique()]: distinct cells in order of first appearance. *)
Fixpoint unique_acc (seen : list A) (s : list A) : list A :=
  match s with
  | [] => rev seen
  | x :: s' =>
      if member x seen then unique_acc seen s'
      else unique_acc (x :: seen) s'
  end.

Definition unique (s : list A) : list A := unique_acc [] s.
End Series.

(** Python's [sorted] on integers. *)
Fixpoint insert_sorted (x : Z) (l : list Z) : list Z :=
  match l with
  | [] => [x]
  | y :: l' => if x <=? y then x :: l else y :: insert_sorted x l'
  end.

Fixpoint sorted (l : list Z) : list Z :=
  match l with
  | [] => []
  | x :: l' => insert_sorted x (sorted l')
  end.

(** ** The filter (lines 65-69) *)

(** [a & b] on boolean series. *)
Fixpoint series_and (a b : list bool) : list bool :=
  match a, b with
  | x :: a', y :: b' => (x && y) :: series_and a' b'
  | _, _ => []
  end.

(** [df[mask]]: boolean indexing.  pandas refuses a mask whose length is
    not the number of rows. *)
Fixpoint getitem_mask (df : DataFrame) (mask : list bool) : option DataFrame :=
  match df, mask with
  | [], [] => Some []
  | r :: df', b :: mask' =>
      match getitem_mask df' mask' with
      | Some rows => Some (if b then r :: rows else rows)
      | None => None
      end
  | _, _ => None
  end.

Definition filter_mask (df : DataFrame) (sel : selection) : list bool :=
  series_and
    (series_and (isin cell_eqb (column sex df) (gender_filter sel))
                (isin Z.eqb (column pclass df) (class_filter sel)))
    (isin cell_eqb (column embark_town df) (embark_filter sel)).

Definition filtered_df (df : DataFrame) (sel : selection) : option DataFrame :=
  getitem_mask df (filter_mask df sel).

(** The default value of the widgets (lines 46-62): nothing is filtered. *)
Definition default_selection (df : DataFrame) : selection :=
  {| gender_filter := unique cell_eqb (column sex df);
     class_filter := sorted (unique Z.eqb (column pclass df));
     embark_filter := unique cell_eqb (column embark_town df) |}.

(** The row predicate the mask computes, used to state the theorems. *)
Definition allowed (sel : selection) (r : passenger) : bool :=
  member cell_eqb (sex r) (gender_filter sel)
  && member Z.eqb (pclass r) (class_filter sel)
  && member cell_eqb (embark_town r) (embark_filter sel).

(** ** KPI metrics (lines 80-83) *)

(** [len(df)]. *)
Definition len {A : Type} (l : list A) : Z := Z.of_nat (List.length l).

(** The cells of a float series that are not NaN. *)
Fixpoint dropna (s : list (option Q)) : list Q :=
  match s with
  | [] => []
  | Some q :: s' => q :: dropna s'
  | None :: s' => dropna s'
  end.

Definition Qsum (l : list Q) : Q := fold_right Qplus 0%Q l.

(** [Series.mean()], with the default [skipna=True]: the sum of the cells
    that are present over their number, NaN when there is none. *)
Definition mean (s : list (option Q)) : number :=
  match dropna s with
  | [] => NaN
  | q :: present => Val (Qsum (q :: present) / inject_Z (len (q :: present)))
  end.

(** An integer column seen as a float series: no cell is missing. *)
Definition as_float (s : list Z) : list (option Q) :=
  map (fun z => Some (inject_Z z)) s.

(** [x * k] on floats: NaN is absorbing. *)
Definition number_mul (x : number) (k : Q) : number :=
  match x with
  | NaN => NaN
  | Val q => Val (q * k)
  end.

Record metrics : Type := mkMetrics {
  total_passengers : Z;
  survival_rate : number;
  avg_age : number;
  avg_fare : number
}.

(** Lines 80-83.  The conditional expression tests [total_passengers > 0]
    first and evaluates the mean only in the true branch. *)
Definition kpi (view : DataFrame) : metrics :=
  let total := len view in
  {| total_passengers := total;
     survival_rate :=
       if 0 <? total
       then number_mul (mean (as_float (column survived view))) 100
       else Val 0;
     avg_age := if 0 <? total then mean (column age view) else Val 0;
     avg_fare := if 0 <? total then mean (column fare view) else Val 0 |}.

(** Comparisons of a float with a constant are false on NaN. *)
Definition number_ge (x : number) (k : Q) : Prop :=
  match x with
  | NaN => False
  | Val q => (k <= q)%Q
  end.

Definition number_le (x : number) (k : Q) : Prop :=
  match x with
  | NaN => False
  | Val q => (q <= k)%Q
  end.

(** Equality of floats up to the representation of the rational. *)
Definition number_eq (x : number) (k : Q) : Prop :=
  match x with
  | NaN => False
  | Val q => (q == k)%Q
  end.

(** ** Evaluation with recorded divisions *)

(** The result of running a piece of the script: the divisions
    [(dividend, divisor)] it evaluated, in order, and its value, [None]
    when a division raised [ZeroDivisionError]. *)
Record run (A : Type) : Type := mkRun {
  divisions : list (Q * Z);
  outcome : option A
}.

Arguments mkRun {A} _ _.
Arguments divisions {A} _.
Arguments outcome {A} _.

Definition ret {A : Type} (a : A) : run A := mkRun [] (Some a).

Definition bind {A B : Type} (m : run A) (f : A -> run B) : run B :=
  match outcome m with
  | None => mkRun (divisions m) None
  | Some a => let r := f a in mkRun (divisions m ++ divisions r) (outcome r)
  end.

Notation "x <- m ;; k" := (bind m (fun x => k))
  (at level 61, m at next level, right associativity).

(** [h / total_count]: a float over an [int]. *)
Definition true_div (h : Q) (d : Z) : run Q :=
  mkRun [(h, d)] (if d =? 0 then None else Some (h / inject_Z d)%Q).

Fixpoint mapM {A B : Type} (f : A -> run B) (l : list A) : run (list B) :=
  match l with
  | [] => ret []
  | x :: l' => y <- f x ;; ys <- mapM f l' ;; ret (y :: ys)
  end.

(** ** String formatting *)

(** [x < y] on rationals. *)
Definition Qltb (x y : Q) : bool :=
  Qnum x * Zpos (Qden y) <? Qnum y * Zpos (Qden x).

(** [int(h)]: truncation towards zero. *)
Definition int (h : Q) : Z := Z.quot (Qnum h) (Zpos (Qden h)).

(** [str(n)] for an [int]. *)
Definition str (n : Z) : string := NilZero.string_of_int (Z.to_int n).

(** Rounding to the nearest integer, ties to even. *)
Definition round_half_even (q : Q) : Z :=
  let f := Qfloor q in
  match Qcompare (q - inject_Z f) (1 # 2) with
  | Lt => f
  | Gt => f + 1
  | Eq => if Z.even f then f else f + 1
  end.

(** The format [:.1f]: one digit after the point. *)
Definition format_1f (q : Q) : string :=
  let tenths := Z.abs (round_half_even (q * 10)) in
  ((if Qltb q 0 then "-" else "")
     ++ str (tenths / 10) ++ "." ++ str (tenths mod 10))%string.

Definition newline : string := String (ascii_of_nat 10) EmptyString.

(** ** Bar annotation (lines 25-39) *)

(** A rendered chart: the bar groups [ax.containers], each given by its
    [datavalues], and the text layer that [ax.bar_label] writes. *)
Record Axes : Type := mkAxes {
  containers : list (list Q);
  texts : list (list string)
}.

(** [ax.bar_label(container, labels=labels, ...)]: one more group of
    texts on the chart. *)
Definition bar_label (ax : Axes) (labels : list string) : Axes :=
  {| containers := containers ax; texts := texts ax ++ [labels] |}.

(** Line 33: the label of one bar. *)
Definition bar_text (total_count : Z) (h : Q) : run string :=
  if Qltb 0 h then
    ratio <- true_div h total_count ;;
    ret (str (int h) ++ newline ++ "(" ++ format_1f (ratio * 100) ++ "%)")%string
  else ret ""%string.

(** Lines 32-35: the labels of one container. *)
Definition container_labels (total_count : Z) (datavalues : list Q)
  : run (list string) :=
  mapM (bar_text total_count) datavalues.

(** The loop of line 30, over the containers that remain. *)
Fixpoint annotate (total_count : Z) (todo : list (list Q)) (ax : Axes)
  : run Axes :=
  match todo with
  | [] => ret ax
  | c :: todo' =>
      labels <- container_labels total_count c ;;
      annotate total_count todo' (bar_label ax labels)
  end.

Definition add_bar_labels (ax : Axes) (total_count : Z) : run Axes :=
  annotate total_count (containers ax) ax.

(** What the claim about labels expects of one bar. *)
Definition expected_label (total_count : Z) (h : Q) : string :=
  if Qltb 0 h then
    (str (int h) ++ newline ++ "("
       ++ format_1f (h / inject_Z total_count * 100) ++ "%)")%string
  else ""%string.

(** ** The count plots and their annotation (lines 100-134) *)

(** The column on the x axis of a count plot. *)
Inductive xcolumn : Type :=
| x_sex
| x_embark_town
| x_pclass.

(** The three annotated charts, in the order the script draws them. *)
Definition annotated_charts : list xcolumn := [x_sex; x_embark_town; x_pclass].

Section Render.
(** [sns.countplot(data=..., x=..., hue='survived', ax=...)] is seaborn's:
    the bar heights it draws are a parameter of the rendering. *)
Variable countplot : DataFrame -> xcolumn -> list (list Q).

(** [plt.subplots()] then [sns.countplot]: a chart without texts. *)
Definition draw (view : DataFrame) (x : xcolumn) : Axes :=
  {| containers := countplot view x; texts := [] |}.

(** The arguments of the calls of lines 107, 117 and 132. *)
Definition bar_label_calls (view : DataFrame) : list (Axes * Z) :=
  map (fun x => (draw view x, total_passengers (kpi view))) annotated_charts.

End Render.

(** A stand-in for the count plot, to instantiate the parameter with: one
    container per value of [survived] in the view, one bar per category of
    the x column in the view, the height being the number of rows of that
    category and that value.  It is not seaborn's algorithm. *)
Inductive category : Type :=
| cat_text : option string -> category
| cat_int : Z -> category.

Definition category_eqb (a b : category) : bool :=
  match a, b with
  | cat_text s, cat_text t => cell_eqb s t
  | cat_int n, cat_int m => n =? m
  | _, _ => false
  end.

Definition category_of (x : xcolumn) (r : passenger) : category :=
  match x with
  | x_sex => cat_text (sex r)
  | x_embark_town => cat_text (embark_town r)
  | x_pclass => cat_int (pclass r)
  end.

Definition count_bars (view : DataFrame) (x : xcolumn) : list (list Q) :=
  map (fun hue =>
         map (fun c =>
                inject_Z (len (filter (fun r => category_eqb (category_of x r) c
                                                && (survived r =? hue)) view)))
             (unique category_eqb (column (category_of x) view)))
      (unique Z.eqb (column survived view)).

(** ** The script as a state transformer *)

(** DataFrames are objects: the script's variables hold references into a
    heap of tables.  An address is a position in the heap; allocation
    appends. *)
Record state : Type := mkState {
  heap : list DataFrame;
  df_ref : nat;
  filtered_df_ref : option nat;
  kpis : option metrics
}.

Definition deref (st : state) (ref : nat) : option DataFrame :=
  nth_error (heap st) ref.

(** Lines 65-69: [filtered_df = df[...]] binds [filtered_df] to a new
    table. *)
Definition apply_filters (sel : selection) (st : state) : option state :=
  match deref st (df_ref st) with
  | None => None
  | Some df =>
      match filtered_df df sel with
      | None => None
      | Some view =>
          Some {| heap := heap st ++ [view];
                  df_ref := df_ref st;
                  filtered_df_ref := Some (List.length (heap st));
                  kpis := kpis st |}
      end
  end.

(** Lines 80-83. *)
Definition compute_kpis (st : state) : option state :=
  match filtered_df_ref st with
  | None => None
  | Some ref =>
      match deref st ref with
      | None => None
      | Some view =>
          Some {| heap := heap st;
                  df_ref := df_ref st;
                  filtered_df_ref := filtered_df_ref st;
                  kpis := Some (kpi view) |}
      end
  end.

(** One rerun of the script after the widgets changed. *)
Definition rerun (sel : selection) (st : state) : option state :=
  match apply_filters sel st with
  | None => None
  | Some st' => compute_kpis st'
  end.

(** The state after [df = load_data()]. *)
Definition loaded (df : DataFrame) : state :=
  {| heap := [df]; df_ref := 0%nat; filtered_df_ref := None; kpis := None |}.

(** ** The example of the specification *)

Definition row (s : string) (c : Z) (town : string) (surv : Z) : passenger :=
  {| sex := Some s; pclass := c; embark_town := Some town;
     age := None; fare := None; family_size := 1; survived := surv |}.

Definition example_df : DataFrame :=
  [ row "male" 1 "Southampton" 1;
    row "female" 1 "Cherbourg" 1;
    row "male" 3 "Southampton" 0;
    row "female" 2 "Queenstown" 0 ].

(** The widgets left at their default except the class, set to [1]. *)
Definition first_class_only : selection :=
  {| gender_filter := gender_filter (default_selection example_df);
     class_filter := [1];
     embark_filter := embark_filter (default_selection example_df) |}.

(** The filter as a row predicate, the reading of the specification. *)
Definition rows_allowed (df : DataFrame) (sel : selection) : DataFrame :=
  filter (allowed sel) df.

(** The position in the view of the row at position [i] of the table. *)
Definition rank (sel : selection) (df : DataFrame) (i : nat) : nat :=
  List.length (filter (allowed sel) (firstn i df)).

(** The sum of an integer column. *)
Definition Zsum (l : list Z) : Z := fold_right Z.add 0 l.

(** The gender widget emptied, the others left at their default. *)
Definition no_gender : selection :=
  {| gender_filter := [];
     class_filter := class_filter (default_selection example_df);
     embark_filter := embark_filter (default_selection example_df) |}.

(** A table of one passenger whose age was not recorded. *)
Definition age_unknown : DataFrame :=
  [ {| sex := Some "male"%string; pclass := 3;
       embark_town := Some "Queenstown"%string;
       age := None; fare := Some (31 # 4); family_size := 1;
       survived := 0 |} ].

(** ** The two density curves (lines 149-150) *)

(** [series == k] on an integer series. *)
Definition series_eq (s : list Z) (k : Z) : list bool :=
  map (fun v => v =? k) s.

(** [filtered_df[filtered_df['survived'] == k]]: the rows of the view that
    feed the curve of the passengers who died ([k = 0]) or survived
    ([k = 1]). *)
Definition density_rows (view : DataFrame) (k : Z) : option DataFrame :=
  getitem_mask view (series_eq (column survived view) k).

(** Selections on the example: the first two classes; the same with the
    widgets' values in another order and repeated; the women of the first
    two classes who did not board at Southampton. *)
Definition upper_classes : selection :=
  {| gender_filter := [Some "male"; Some "female"]%string;
     class_filter := [1; 2];
     embark_filter :=
       [Some "Southampton"; Some "Cherbourg"; Some "Queenstown"]%string |}.

Definition upper_classes_shuffled : selection :=
  {| gender_filter := [Some "female"; Some "male"; Some "male"]%string;
     class_filter := [2; 1; 2];
     embark_filter :=
       [Some "Queenstown"; Some "Cherbourg"; Some "Southampton";
        Some "Cherbourg"]%string |}.

Definition upper_class_women : selection :=
  {| gender_filter := [Some "female"%string];
     class_filter := [1; 2];
     embark_filter := [Some "Cherbourg"; Some "Queenstown"]%string |}.

(** ** The mean in the words of the specification *)

(** Whether a cell of a float column holds a value. *)
Definition present (c : option Q) : bool :=
  match c with
  | Some _ => true
  | None => false
  end.

(** What a cell adds to the sum of its column: nothing when it is
    missing. *)
Definition cell_value (c : option Q) : Q :=
  match c with
  | Some q => q
  | None => 0%Q
  end.

(** Two passengers, the age of the first not recorded, the second aged
    40. *)
Definition age_partly_known : DataFrame :=
  [ {| sex := Some "male"%string; pclass := 3;
       embark_town := Some "Queenstown"%string;
       age := None; fare := Some (31 # 4); family_size := 1;
       survived := 0 |};
    {| sex := Some "female"%string; pclass := 1;
       embark_town := Some "Cherbourg"%string;
       age := Some 40%Q; fare := Some 80%Q; family_size := 2;
       survived := 1 |} ].

(** ** Line 33 in double precision *)













(** * Properties *)

(** ** Membership, [unique] and [sorted] *)

Lemma cell_eqb_eq (a b : option string) : cell_eqb a b = true <-> a = b.
Proof.
  destruct a as [x|], b as [y|]; simpl; split; intro H;
    try discriminate; try reflexivity.
  - apply String.eqb_eq in H. now subst.
  - inversion H. apply String.eqb_refl.
Qed.

Section SeriesFacts.
Context {A : Type}.
Variable eqb : A -> A -> bool.
Hypothesis eqb_eq : forall a b, eqb a b = true <-> a = b.

Lemma member_In (x : A) (values : list A) :
  member eqb x values = true <-> In x values.
Proof.
  unfold member. rewrite existsb_exists. split.
  - intros [y [Hy Hxy]]. apply eqb_eq in Hxy. now subst.
  - intro H. exists x. split; [assumption | now apply eqb_eq].
Qed.

Lemma unique_acc_In (s seen : list A) (x : A) :
  In x (unique_acc eqb seen s) <-> In x seen \/ In x s.
Proof.
  revert seen. induction s as [|y s IH]; intro seen; simpl.
  - rewrite <- in_rev. tauto.
  - destruct (member eqb y seen) eqn:Hm; rewrite IH.
    + apply member_In in Hm. split.
      * tauto.
      * intros [H | [H | H]]; subst; tauto.
    + simpl. tauto.
Qed.

Lemma unique_In (s : list A) (x : A) : In x (unique eqb s) <-> In x s.
Proof. unfold unique. rewrite unique_acc_In. simpl. tauto. Qed.
End SeriesFacts.

Lemma insert_sorted_In (x y : Z) (l : list Z) :
  In y (insert_sorted x l) <-> y = x \/ In y l.
Proof.
  induction l as [|z l IH]; simpl.
  - intuition.
  - destruct (x <=? z); simpl; rewrite ?IH; intuition.
Qed.

Lemma sorted_In (l : list Z) (y : Z) : In y (sorted l) <-> In y l.
Proof.
  induction l as [|x l IH]; simpl; [tauto|].
  rewrite insert_sorted_In, IH. intuition.
Qed.

(** ** The mask selects the allowed rows *)

Lemma filter_mask_cons (r : passenger) (df : DataFrame) (sel : selection) :
  filter_mask (r :: df) sel = allowed sel r :: filter_mask df sel.
Proof. reflexivity. Qed.

Lemma filter_mask_length (df : DataFrame) (sel : selection) :
  List.length (filter_mask df sel) = List.length df.
Proof.
  induction df as [|r df IH]; [reflexivity|].
  rewrite filter_mask_cons. simpl. now rewrite IH.
Qed.

Lemma filtered_df_filter (df : DataFrame) (sel : selection) :
  filtered_df df sel = Some (rows_allowed df sel).
Proof.
  unfold filtered_df, rows_allowed.
  induction df as [|r df IH]; [reflexivity|].
  rewrite filter_mask_cons. simpl. rewrite IH. reflexivity.
Qed.

Lemma allowed_spec (sel : selection) (r : passenger) :
  allowed sel r = true <->
  In (sex r) (gender_filter sel) /\
  In (pclass r) (class_filter sel) /\
  In (embark_town r) (embark_filter sel).
Proof.
  unfold allowed. rewrite !andb_true_iff.
  rewrite !(member_In cell_eqb cell_eqb_eq), (member_In Z.eqb Z.eqb_eq).
  tauto.
Qed.

(** C1.  The filtered view always exists and is exactly the rows of the
    table, in order and with their multiplicity, whose [sex] is in the
    allowed genders and whose [pclass] is in the allowed classes and whose
    [embark_town] is in the allowed ports; so every row of the view is a
    row of the table that satisfies the three memberships. *)
Theorem filtered_df_exact (df : DataFrame) (sel : selection) :
  exists view,
    filtered_df df sel = Some view /\
    view = filter (fun r => allowed sel r) df /\
    forall r,
      In r view <->
      In r df /\
      In (sex r) (gender_filter sel) /\
      In (pclass r) (class_filter sel) /\
      In (embark_town r) (embark_filter sel).
Proof.
  exists (rows_allowed df sel). split; [apply filtered_df_filter|].
  split; [reflexivity|]. intro r. unfold rows_allowed.
  rewrite filter_In, allowed_spec. tauto.
Qed.

Lemma default_selection_allows (df : DataFrame) (r : passenger) :
  In r df -> allowed (default_selection df) r = true.
Proof.
  intro H. apply allowed_spec. simpl. repeat split.
  - apply (unique_In cell_eqb cell_eqb_eq). unfold column. now apply in_map.
  - apply sorted_In, (unique_In Z.eqb Z.eqb_eq). unfold column. now apply in_map.
  - apply (unique_In cell_eqb cell_eqb_eq). unfold column. now apply in_map.
Qed.

Lemma filter_all {A : Type} (p : A -> bool) (l : list A) :
  (forall x, In x l -> p x = true) -> filter p l = l.
Proof.
  induction l as [|x l IH]; intro H; [reflexivity|]. simpl.
  rewrite (H x (or_introl eq_refl)). f_equal. apply IH.
  intros y Hy. apply H. now right.
Qed.

(** C2.  With the widgets at their default, every column allowing all the
    distinct values the table has in it, the filtered view is the whole
    table. *)
Theorem filtered_df_default (df : DataFrame) :
  filtered_df df (default_selection df) = Some df.
Proof.
  rewrite filtered_df_filter. f_equal. unfold rows_allowed.
  apply filter_all. apply default_selection_allows.
Qed.

(** ** Order of the rows *)

Lemma nth_error_split_at {A : Type} (l : list A) (i : nat) (x : A) :
  nth_error l i = Some x -> l = firstn i l ++ x :: skipn (S i) l.
Proof.
  revert i. induction l as [|y l IH]; intros [|i] H; simpl in *;
    try discriminate.
  - now inversion H.
  - f_equal. now apply IH.
Qed.

Lemma rank_nth (sel : selection) (df : DataFrame) (i : nat) (r : passenger) :
  nth_error df i = Some r -> allowed sel r = true ->
  nth_error (rows_allowed df sel) (rank sel df i) = Some r.
Proof.
  intros Hi Hr. unfold rows_allowed, rank.
  rewrite (nth_error_split_at df i r Hi) at 1.
  rewrite filter_app. simpl. rewrite Hr.
  rewrite nth_error_app2 by apply Nat.le_refl.
  now rewrite Nat.sub_diag.
Qed.

Lemma rank_lt (sel : selection) (df : DataFrame) (i j : nat) (r : passenger) :
  (i < j)%nat -> nth_error df i = Some r -> allowed sel r = true ->
  (rank sel df i < rank sel df j)%nat.
Proof.
  intros Hij Hi Hr. unfold rank.
  assert (Hsplit : firstn j df = firstn i df ++ r :: firstn (j - S i) (skipn (S i) df)).
  { rewrite (nth_error_split_at df i r Hi) at 1.
    assert (Hlen : List.length (firstn i df) = i).
    { apply firstn_length_le. apply Nat.lt_le_incl.
      apply nth_error_Some. congruence. }
    rewrite firstn_app, Hlen.
    rewrite firstn_all2 by (rewrite Hlen; lia).
    replace (j - i)%nat with (S (j - S i)) by lia. reflexivity. }
  rewrite Hsplit, filter_app, length_app. simpl. rewrite Hr. simpl. lia.
Qed.

(** C10.  The view keeps the rows in the order of the table: when the row
    at position [i] comes before the row at position [j] and both are
    allowed, they are in the view at positions [rank i] and [rank j], the
    first before the second. *)
Theorem filtered_df_order (df : DataFrame) (sel : selection) (view : DataFrame)
    (i j : nat) (ri rj : passenger) :
  filtered_df df sel = Some view ->
  (i < j)%nat ->
  nth_error df i = Some ri -> nth_error df j = Some rj ->
  allowed sel ri = true -> allowed sel rj = true ->
  nth_error view (rank sel df i) = Some ri /\
  nth_error view (rank sel df j) = Some rj /\
  (rank sel df i < rank sel df j)%nat.
Proof.
  intros Hview Hij Hi Hj Hri Hrj.
  rewrite filtered_df_filter in Hview. inversion Hview; subst view.
  repeat split.
  - now apply rank_nth.
  - now apply rank_nth.
  - now apply rank_lt with (r := ri).
Qed.

Lemma filtered_df_order_witness :
  nth_error (rows_allowed example_df first_class_only) 0 =
    Some (row "male" 1 "Southampton" 1) /\
  nth_error (rows_allowed example_df first_class_only) 1 =
    Some (row "female" 1 "Cherbourg" 1) /\
  (0 < 1)%nat.
Proof.
  exact (filtered_df_order example_df first_class_only
           (rows_allowed example_df first_class_only) 0 1
           (row "male" 1 "Southampton" 1) (row "female" 1 "Cherbourg" 1)
           eq_refl (Nat.lt_succ_diag_r 0) eq_refl eq_refl eq_refl eq_refl).
Defined.

(** ** The KPI metrics *)

Lemma len_pos {A : Type} (l : list A) : l <> [] -> 0 < len l.
Proof. destruct l; [congruence|]. intros _. unfold len. simpl. lia. Qed.

Lemma inject_Z_pos (z : Z) : 0 < z -> (0 < inject_Z z)%Q.
Proof. intro H. unfold Qlt. simpl. lia. Qed.

Lemma kpi_empty : kpi [] = mkMetrics 0 (Val 0) (Val 0) (Val 0).
Proof. reflexivity. Qed.

Lemma kpi_nonempty (view : DataFrame) :
  view <> [] ->
  kpi view =
  mkMetrics (len view)
            (number_mul (mean (as_float (column survived view))) 100)
            (mean (column age view))
            (mean (column fare view)).
Proof.
  intro H. apply len_pos in H. unfold kpi.
  apply Z.ltb_lt in H. cbv zeta. now rewrite H.
Qed.

Lemma mean_present (s : list (option Q)) :
  dropna s <> [] ->
  mean s = Val (Qsum (dropna s) / inject_Z (len (dropna s))).
Proof. unfold mean. destruct (dropna s); [congruence | reflexivity]. Qed.

Lemma mean_absent (s : list (option Q)) : dropna s = [] -> mean s = NaN.
Proof. unfold mean. now intros ->. Qed.

Lemma dropna_as_float (l : list Z) : dropna (as_float l) = map inject_Z l.
Proof. induction l as [|z l IH]; simpl; [reflexivity | now rewrite IH]. Qed.

Lemma Qsum_inject_Z (l : list Z) : (Qsum (map inject_Z l) == inject_Z (Zsum l))%Q.
Proof.
  induction l as [|z l IH]; simpl; [reflexivity|].
  rewrite IH, inject_Z_plus. reflexivity.
Qed.

Lemma dropna_all_present (s : list (option Q)) :
  (forall c, In c s -> c <> None) -> List.length (dropna s) = List.length s.
Proof.
  induction s as [|[q|] s IH]; intro H; simpl.
  - reflexivity.
  - f_equal. apply IH. intros c Hc. apply H. now right.
  - exfalso. apply (H None); [now left | reflexivity].
Qed.

Lemma dropna_none_present (s : list (option Q)) :
  (forall c, In c s -> c = None) -> dropna s = [].
Proof.
  induction s as [|[q|] s IH]; intro H; simpl.
  - reflexivity.
  - discriminate (H (Some q) (or_introl eq_refl)).
  - apply IH. intros c Hc. apply H. now right.
Qed.

Lemma dropna_In (s : list (option Q)) (q : Q) :
  In q (dropna s) <-> In (Some q) s.
Proof.
  induction s as [|[p|] s IH]; simpl.
  - tauto.
  - rewrite IH. split; intros [H | H]; auto; left; congruence.
  - rewrite IH. split; [auto | intros [H | H]; [discriminate | auto]].
Qed.

(** C3.  When the filtered view is empty the count is 0 and the three
    other metrics are the number 0, not NaN: the script computes them
    without taking a mean.  A widget that allows none of the genders of the
    table, the empty selection among them, gives such a view. *)
Theorem kpi_empty_view (df : DataFrame) (sel : selection) :
  (filtered_df df sel = Some [] ->
   exists view,
     filtered_df df sel = Some view /\
     total_passengers (kpi view) = 0 /\
     survival_rate (kpi view) = Val 0 /\
     avg_age (kpi view) = Val 0 /\
     avg_fare (kpi view) = Val 0) /\
  ((forall r, In r df -> ~ In (sex r) (gender_filter sel)) ->
   filtered_df df sel = Some []).
Proof.
  split.
  - intro H. exists []. rewrite kpi_empty. simpl. auto.
  - intro H. rewrite filtered_df_filter. f_equal. unfold rows_allowed.
    induction df as [|r df IH]; [reflexivity|]. simpl.
    destruct (allowed sel r) eqn:Hr.
    + apply allowed_spec in Hr. exfalso.
      apply (H r (or_introl eq_refl)). tauto.
    + apply IH. intros x Hx. apply H. now right.
Qed.

Lemma kpi_empty_view_witness :
  exists view,
    filtered_df example_df no_gender = Some view /\
    total_passengers (kpi view) = 0 /\
    survival_rate (kpi view) = Val 0 /\
    avg_age (kpi view) = Val 0 /\
    avg_fare (kpi view) = Val 0.
Proof.
  exact (proj1 (kpi_empty_view example_df no_gender) eq_refl).
Defined.

Lemma present_cells (f : passenger -> option Q) (view : DataFrame) :
  (Qsum (dropna (column f view))
   == fold_right Qplus 0%Q (map (fun r => cell_value (f r)) view))%Q /\
  List.length (dropna (column f view))
  = List.length (filter (fun r => present (f r)) view).
Proof.
  unfold column. induction view as [|r view [IHsum IHlen]];
    [split; reflexivity|].
  simpl. destruct (f r) as [q|]; simpl.
  - split; [now rewrite IHsum | now rewrite IHlen].
  - split; [rewrite IHsum; ring | exact IHlen].
Qed.

Lemma avg_of_present (f : passenger -> option Q) (view : DataFrame) :
  (exists r, In r view /\ f r <> None) ->
  number_eq (mean (column f view))
    (fold_right Qplus 0%Q (map (fun r => cell_value (f r)) view)
       / inject_Z (len (filter (fun r => present (f r)) view))).
Proof.
  intro Hex. destruct (present_cells f view) as [Hsum Hlen].
  assert (Hne : dropna (column f view) <> []).
  { destruct Hex as [r [Hr Hf]]. destruct (f r) as [q|] eqn:Hq; [|congruence].
    intro E. assert (Hin : In q (dropna (column f view))).
    { apply dropna_In. rewrite <- Hq. unfold column. now apply in_map. }
    rewrite E in Hin. contradiction. }
  rewrite (mean_present _ Hne). simpl.
  unfold len. now rewrite Hsum, Hlen.
Qed.

Lemma all_present (f : passenger -> option Q) (view : DataFrame) :
  (forall r, In r view -> f r <> None) ->
  filter (fun r => present (f r)) view = view.
Proof.
  intro H. apply filter_all. intros r Hr.
  specialize (H r Hr). now destruct (f r).
Qed.

(** C4.  For a view that is not empty: the count is the number of its
    rows; the survival rate is the sum of [survived] over the count, times
    100; the average age is the sum of the ages that are recorded over the
    number of rows that have one, the rows without an age counting neither
    in the sum nor in the number (NaN when no row has one); the average
    fare likewise, which is the sum of the fares over the count when no
    fare is missing.  On the example of four passengers with the class
    widget set to 1, the view has 2 rows, the count is 2 and the survival
    rate is 100.  For a passenger without an age and one aged 40 the
    average age is 40. *)
Theorem kpi_nonempty_view :
  (forall view : DataFrame,
     view <> [] ->
     total_passengers (kpi view) = len view /\
     number_eq (survival_rate (kpi view))
       (inject_Z (Zsum (column survived view)) / inject_Z (len view) * 100) /\
     ((exists r, In r view /\ age r <> None) ->
      number_eq (avg_age (kpi view))
        (fold_right Qplus 0%Q (map (fun r => cell_value (age r)) view)
           / inject_Z (len (filter (fun r => present (age r)) view)))) /\
     ((forall r, In r view -> age r = None) -> avg_age (kpi view) = NaN) /\
     ((exists r, In r view /\ fare r <> None) ->
      number_eq (avg_fare (kpi view))
        (fold_right Qplus 0%Q (map (fun r => cell_value (fare r)) view)
           / inject_Z (len (filter (fun r => present (fare r)) view)))) /\
     ((forall r, In r view -> fare r = None) -> avg_fare (kpi view) = NaN) /\
     ((forall r, In r view -> fare r <> None) ->
      number_eq (avg_fare (kpi view))
        (fold_right Qplus 0%Q (map (fun r => cell_value (fare r)) view)
           / inject_Z (len view)))) /\
  (exists view,
     filtered_df example_df first_class_only = Some view /\
     List.length view = 2%nat /\
     total_passengers (kpi view) = 2 /\
     number_eq (survival_rate (kpi view)) 100) /\
  number_eq (avg_age (kpi age_partly_known)) 40 /\
  number_eq (avg_fare (kpi age_partly_known)) (351 # 8).
Proof.
  split; [|split; [|split]].
  - intros view Hne. pose proof (kpi_nonempty view Hne) as Hkpi.
    rewrite Hkpi. cbn [total_passengers survival_rate avg_age avg_fare].
    split; [reflexivity|]. split; [|split; [|split; [|split; [|split]]]].
    + assert (Hcol : dropna (as_float (column survived view)) <> []).
      { rewrite dropna_as_float. destruct view; [congruence | discriminate]. }
      rewrite (mean_present _ Hcol), dropna_as_float. simpl.
      rewrite Qsum_inject_Z. unfold len, column.
      rewrite !length_map. reflexivity.
    + apply avg_of_present.
    + intro H. apply mean_absent, dropna_none_present.
      intros c Hc. unfold column in Hc. apply in_map_iff in Hc.
      destruct Hc as [r [<- Hr]]. now apply H.
    + apply avg_of_present.
    + intro H. apply mean_absent, dropna_none_present.
      intros c Hc. unfold column in Hc. apply in_map_iff in Hc.
      destruct Hc as [r [<- Hr]]. now apply H.
    + intro H.
      assert (Hex : exists r, In r view /\ fare r <> None).
      { destruct view as [|r view']; [congruence|].
        exists r. split; [now left | apply H; now left]. }
      pose proof (avg_of_present fare view Hex) as Havg.
      rewrite (all_present fare view H) in Havg. exact Havg.
  - exists (rows_allowed example_df first_class_only).
    split; [apply filtered_df_filter|].
    split; [reflexivity|]. split; reflexivity.
  - reflexivity.
  - reflexivity.
Qed.

Lemma kpi_nonempty_view_witness :
  total_passengers (kpi age_partly_known) = 2 /\
  number_eq (avg_age (kpi age_partly_known))
    (fold_right Qplus 0%Q (map (fun r => cell_value (age r)) age_partly_known)
       / inject_Z (len (filter (fun r => present (age r)) age_partly_known))).
Proof.
  assert (Hne : age_partly_known <> []) by discriminate.
  split.
  - exact (proj1 (proj1 kpi_nonempty_view _ Hne)).
  - apply (proj1 (proj2 (proj2 (proj1 kpi_nonempty_view _ Hne)))).
    eexists. split; [right; left; reflexivity | discriminate].
Defined.

(** ** Bounds on the metrics *)

Lemma inject_Z_len_cons {A : Type} (x : A) (l : list A) :
  (inject_Z (len (x :: l)) == inject_Z (len l) + 1)%Q.
Proof.
  unfold len. simpl List.length. rewrite Nat2Z.inj_succ.
  unfold Z.succ. now rewrite inject_Z_plus.
Qed.

Lemma Qsum_nonneg (l : list Q) :
  Forall (fun q => (0 <= q)%Q) l -> (0 <= Qsum l)%Q.
Proof.
  induction 1 as [|q l Hq _ IH]; simpl; [apply Qle_refl | lra].
Qed.

Lemma Qsum_le_len (l : list Q) :
  Forall (fun q => (q <= 1)%Q) l -> (Qsum l <= inject_Z (len l))%Q.
Proof.
  induction 1 as [|q l Hq _ IH].
  - apply Qle_refl.
  - rewrite inject_Z_len_cons. simpl. lra.
Qed.

Lemma mean_nonneg (s : list (option Q)) :
  Forall (fun q => (0 <= q)%Q) (dropna s) -> dropna s <> [] ->
  number_ge (mean s) 0.
Proof.
  intros Hs Hne. rewrite (mean_present s Hne). simpl.
  apply Qle_shift_div_l.
  - apply inject_Z_pos, len_pos, Hne.
  - rewrite Qmult_0_l. now apply Qsum_nonneg.
Qed.

Lemma mean_le_1 (s : list (option Q)) :
  Forall (fun q => (q <= 1)%Q) (dropna s) -> dropna s <> [] ->
  number_le (mean s) 1.
Proof.
  intros Hs Hne. rewrite (mean_present s Hne). simpl.
  apply Qle_shift_div_r.
  - apply inject_Z_pos, len_pos, Hne.
  - rewrite Qmult_1_l. now apply Qsum_le_len.
Qed.

Lemma view_rows (df : DataFrame) (sel : selection) (view : DataFrame) :
  filtered_df df sel = Some view -> forall r, In r view -> In r df.
Proof.
  rewrite filtered_df_filter. intros H r Hr. inversion H; subst view.
  unfold rows_allowed in Hr. now apply filter_In in Hr.
Qed.

Lemma column_present_nonneg (f : passenger -> option Q) (view : DataFrame) :
  (forall r q, In r view -> f r = Some q -> (0 <= q)%Q) ->
  Forall (fun q => (0 <= q)%Q) (dropna (column f view)).
Proof.
  intro H. apply Forall_forall. intros q Hq.
  apply dropna_In in Hq. unfold column in Hq. apply in_map_iff in Hq.
  destruct Hq as [r [Hfr Hr]]. now apply (H r q).
Qed.

Lemma column_has_present (f : passenger -> option Q) (view : DataFrame) :
  (exists r, In r view /\ f r <> None) -> dropna (column f view) <> [].
Proof.
  intros [r [Hr Hf]] E. destruct (f r) as [q|] eqn:Hq; [|congruence].
  assert (Hin : In q (dropna (column f view))).
  { apply dropna_In. rewrite <- Hq. unfold column. now apply in_map. }
  rewrite E in Hin. contradiction.
Qed.

Lemma avg_nonneg (f : passenger -> option Q) (view : DataFrame) :
  (forall r q, In r view -> f r = Some q -> (0 <= q)%Q) ->
  view = [] \/ (exists r, In r view /\ f r <> None) ->
  number_ge (if 0 <? len view then mean (column f view) else Val 0) 0.
Proof.
  intros Hpos [-> | Hex]; [simpl; apply Qle_refl|].
  assert (Hne : view <> []).
  { destruct Hex as [r [Hr _]]. intro E. now rewrite E in Hr. }
  apply len_pos, Z.ltb_lt in Hne. rewrite Hne.
  apply mean_nonneg; [now apply column_present_nonneg|].
  now apply column_has_present.
Qed.

Lemma avg_all_absent (f : passenger -> option Q) (view : DataFrame) :
  view <> [] -> (forall r, In r view -> f r = None) ->
  (if 0 <? len view then mean (column f view) else Val 0) = NaN.
Proof.
  intros Hne H. apply len_pos, Z.ltb_lt in Hne. rewrite Hne.
  apply mean_absent, dropna_none_present.
  intros c Hc. unfold column in Hc. apply in_map_iff in Hc.
  destruct Hc as [r [<- Hr]]. now apply H.
Qed.

Lemma survival_rate_bounds (view : DataFrame) :
  (forall r, In r view -> survived r = 0 \/ survived r = 1) ->
  number_ge (survival_rate (kpi view)) 0 /\
  number_le (survival_rate (kpi view)) 100.
Proof.
  intro H01. destruct view as [|r0 view'] eqn:Eview.
  - simpl. split; [apply Qle_refl | discriminate].
  - rewrite <- Eview in *.
    assert (Hne : view <> []) by (rewrite Eview; discriminate).
    rewrite (kpi_nonempty view Hne). simpl.
    assert (Hcol : dropna (as_float (column survived view)) <> []).
    { rewrite dropna_as_float, Eview. discriminate. }
    assert (Hall : Forall (fun q => (0 <= q)%Q /\ (q <= 1)%Q)
                     (dropna (as_float (column survived view)))).
    { rewrite dropna_as_float. apply Forall_forall. intros q Hq.
      apply in_map_iff in Hq. destruct Hq as [z [<- Hz]].
      unfold column in Hz. apply in_map_iff in Hz.
      destruct Hz as [r [<- Hr]].
      destruct (H01 r Hr) as [-> | ->]; split; discriminate. }
    pose proof (mean_nonneg _ (Forall_impl _ (fun q Hq => proj1 Hq) Hall) Hcol)
      as Hlo.
    pose proof (mean_le_1 _ (Forall_impl _ (fun q Hq => proj2 Hq) Hall) Hcol)
      as Hhi.
    destruct (mean (as_float (column survived view))) as [|m];
      simpl in *; [contradiction|]. split; lra.
Qed.

(** C5, as the code has it.  For a table whose [survived] cells are 0 or 1
    and whose ages and fares are not negative where present, the survival
    rate of every filtered view is between 0 and 100; the average age is at
    least 0 when the view is empty or holds a row whose age is present, and
    likewise the average fare; for a view that is not empty and in which no
    age (no fare) is present the average is NaN, which is not at least 0. *)
Theorem kpi_bounds (df : DataFrame) (sel : selection) (view : DataFrame) :
  (forall r, In r df -> survived r = 0 \/ survived r = 1) ->
  (forall r q, In r df -> age r = Some q -> (0 <= q)%Q) ->
  (forall r q, In r df -> fare r = Some q -> (0 <= q)%Q) ->
  filtered_df df sel = Some view ->
  number_ge (survival_rate (kpi view)) 0 /\
  number_le (survival_rate (kpi view)) 100 /\
  (view = [] \/ (exists r, In r view /\ age r <> None) ->
   number_ge (avg_age (kpi view)) 0) /\
  (view = [] \/ (exists r, In r view /\ fare r <> None) ->
   number_ge (avg_fare (kpi view)) 0) /\
  (view <> [] -> (forall r, In r view -> age r = None) ->
   avg_age (kpi view) = NaN) /\
  (view <> [] -> (forall r, In r view -> fare r = None) ->
   avg_fare (kpi view) = NaN).
Proof.
  intros H01 Hage Hfare Hview.
  pose proof (view_rows df sel view Hview) as Hsub.
  destruct (survival_rate_bounds view) as [Hlo Hhi].
  { intros r Hr. apply H01. now apply Hsub. }
  split; [exact Hlo|]. split; [exact Hhi|].
  split; [|split; [|split]].
  - apply (avg_nonneg age). intros r q Hr. apply Hage. now apply Hsub.
  - apply (avg_nonneg fare). intros r q Hr. apply Hfare. now apply Hsub.
  - apply (avg_all_absent age).
  - apply (avg_all_absent fare).
Qed.

Lemma age_unknown_domain :
  (forall r, In r age_unknown -> survived r = 0 \/ survived r = 1) /\
  (forall r q, In r age_unknown -> age r = Some q -> (0 <= q)%Q) /\
  (forall r q, In r age_unknown -> fare r = Some q -> (0 <= q)%Q).
Proof.
  split; [|split].
  - intros r [<- | []]. now left.
  - intros r q [<- | []]. discriminate.
  - intros r q [<- | []]. simpl. intro H. inversion H. discriminate.
Defined.

Lemma kpi_bounds_witness :
  number_ge (survival_rate (kpi age_unknown)) 0 /\
  number_le (survival_rate (kpi age_unknown)) 100 /\
  number_ge (avg_fare (kpi age_unknown)) 0 /\
  avg_age (kpi age_unknown) = NaN.
Proof.
  destruct age_unknown_domain as [H01 [Hage Hfare]].
  pose proof (kpi_bounds age_unknown (default_selection age_unknown)
                age_unknown H01 Hage Hfare eq_refl) as H.
  destruct H as [Hlo [Hhi [_ [Hf [Ha _]]]]].
  split; [exact Hlo|]. split; [exact Hhi|]. split.
  - apply Hf. right. eexists. split; [left; reflexivity | discriminate].
  - apply Ha; [discriminate|]. intros r [<- | []]. reflexivity.
Defined.

(** C5, as the claim states it, fails: the table [age_unknown] is in the
    claim's domain and is its own filtered view under the default
    selection, yet its average age is NaN and so is not at least 0. *)
Lemma avg_age_not_nonneg :
  (forall r, In r age_unknown -> survived r = 0 \/ survived r = 1) /\
  (forall r q, In r age_unknown -> age r = Some q -> (0 <= q)%Q) /\
  (forall r q, In r age_unknown -> fare r = Some q -> (0 <= q)%Q) /\
  filtered_df age_unknown (default_selection age_unknown) = Some age_unknown /\
  avg_age (kpi age_unknown) = NaN /\
  ~ number_ge (avg_age (kpi age_unknown)) 0.
Proof.
  destruct age_unknown_domain as [H01 [Hage Hfare]].
  repeat split; try assumption. intro H. exact H.
Qed.

(** ** Running the annotation *)

Lemma Qltb_lt (x y : Q) : Qltb x y = true <-> (x < y)%Q.
Proof. unfold Qltb, Qlt. apply Z.ltb_lt. Qed.

Lemma Qltb_zero (h : Q) : (h <= 0)%Q -> Qltb 0 h = false.
Proof.
  intro H. destruct (Qltb 0 h) eqn:E; [|reflexivity].
  apply Qltb_lt in E. lra.
Qed.

Lemma bind_outcome {A B : Type} (m : run A) (f : A -> run B) (a : A) :
  outcome m = Some a -> outcome (bind m f) = outcome (f a).
Proof. unfold bind. now intros ->. Qed.

Lemma bind_divisions {A B : Type} (P : Q * Z -> Prop)
    (m : run A) (f : A -> run B) :
  Forall P (divisions m) -> (forall a, Forall P (divisions (f a))) ->
  Forall P (divisions (bind m f)).
Proof.
  intros Hm Hf. unfold bind. destruct (outcome m) as [a|]; simpl.
  - apply Forall_app. split; [assumption | apply Hf].
  - assumption.
Qed.

Lemma mapM_outcome {A B : Type} (f : A -> run B) (g : A -> B) (l : list A) :
  (forall x, In x l -> outcome (f x) = Some (g x)) ->
  outcome (mapM f l) = Some (map g l).
Proof.
  induction l as [|x l IH]; intro H; [reflexivity|]. simpl.
  rewrite (bind_outcome _ _ (g x)) by (apply H; now left).
  rewrite (bind_outcome _ _ (map g l)); [reflexivity|].
  apply IH. intros y Hy. apply H. now right.
Qed.

Lemma bar_text_outcome (total_count : Z) (h : Q) :
  total_count <> 0 ->
  outcome (bar_text total_count h) = Some (expected_label total_count h).
Proof.
  intro H. apply Z.eqb_neq in H. unfold bar_text, expected_label.
  destruct (Qltb 0 h); [|reflexivity].
  unfold bind, true_div. simpl. rewrite H. reflexivity.
Qed.

Lemma bar_text_not_positive (total_count : Z) (h : Q) :
  (h <= 0)%Q -> bar_text total_count h = ret ""%string.
Proof. intro H. unfold bar_text. now rewrite (Qltb_zero h H). Qed.

Lemma bar_text_divisions (total_count : Z) (h : Q) :
  Forall (fun e => (0 < fst e)%Q /\ snd e = total_count /\ fst e = h)
         (divisions (bar_text total_count h)).
Proof.
  unfold bar_text. destruct (Qltb 0 h) eqn:E; [|constructor].
  apply Qltb_lt in E. apply bind_divisions.
  - simpl. constructor; [|constructor]. simpl. auto.
  - intro a. constructor.
Qed.

Lemma container_labels_divisions (total_count : Z) (c : list Q) :
  Forall (fun e => (0 < fst e)%Q /\ snd e = total_count /\ In (fst e) c)
         (divisions (container_labels total_count c)).
Proof.
  unfold container_labels. induction c as [|h c IH]; [constructor|].
  simpl mapM. apply bind_divisions.
  - eapply Forall_impl; [|apply bar_text_divisions].
    intros e [H1 [H2 H3]]. simpl. auto.
  - intro y. apply bind_divisions; [|intro ys; constructor].
    eapply Forall_impl; [|apply IH].
    intros e [H1 [H2 H3]]. simpl. auto.
Qed.

Lemma annotate_divisions (total_count : Z) (todo : list (list Q)) (ax : Axes) :
  Forall (fun e => (0 < fst e)%Q /\ snd e = total_count /\
                   In (fst e) (List.concat todo))
         (divisions (annotate total_count todo ax)).
Proof.
  revert ax. induction todo as [|c todo IH]; intro ax; [constructor|].
  simpl annotate. apply bind_divisions.
  - eapply Forall_impl; [|apply container_labels_divisions].
    intros e [H1 [H2 H3]]. simpl. rewrite in_app_iff. auto.
  - intro labels. eapply Forall_impl; [|apply IH].
    intros e [H1 [H2 H3]]. simpl. rewrite in_app_iff. auto.
Qed.

Lemma annotate_outcome (total_count : Z) (g : list Q -> list string)
    (todo : list (list Q)) (ax : Axes) :
  (forall c, In c todo ->
             outcome (container_labels total_count c) = Some (g c)) ->
  outcome (annotate total_count todo ax) =
  Some {| containers := containers ax; texts := texts ax ++ map g todo |}.
Proof.
  revert ax. induction todo as [|c todo IH]; intros ax H.
  - simpl. rewrite app_nil_r. now destruct ax.
  - simpl annotate.
    rewrite (bind_outcome _ _ (g c)) by (apply H; now left).
    rewrite IH by (intros c' Hc'; apply H; now right).
    simpl. now rewrite <- app_assoc.
Qed.

Lemma container_labels_outcome (total_count : Z) (c : list Q) :
  total_count <> 0 ->
  outcome (container_labels total_count c) =
  Some (map (expected_label total_count) c).
Proof.
  intro H. apply mapM_outcome. intros h _. now apply bar_text_outcome.
Qed.

Lemma container_labels_flat (total_count : Z) (c : list Q) :
  Forall (fun h => (h <= 0)%Q) c ->
  outcome (container_labels total_count c) =
  Some (map (fun _ => ""%string) c).
Proof.
  intro H. apply mapM_outcome. intros h Hh.
  rewrite Forall_forall in H. now rewrite (bar_text_not_positive _ h (H h Hh)).
Qed.

Lemma add_bar_labels_outcome (ax : Axes) (total_count : Z) :
  total_count <> 0 ->
  outcome (add_bar_labels ax total_count) =
  Some {| containers := containers ax;
          texts := texts ax
                   ++ map (map (expected_label total_count)) (containers ax) |}.
Proof.
  intro H. unfold add_bar_labels. apply annotate_outcome.
  intros c _. now apply container_labels_outcome.
Qed.

Lemma add_bar_labels_flat (ax : Axes) (total_count : Z) :
  Forall (Forall (fun h => (h <= 0)%Q)) (containers ax) ->
  outcome (add_bar_labels ax total_count) =
  Some {| containers := containers ax;
          texts := texts ax
                   ++ map (map (fun _ => ""%string)) (containers ax) |}.
Proof.
  intro H. unfold add_bar_labels. apply annotate_outcome.
  intros c Hc. apply container_labels_flat.
  rewrite Forall_forall in H. now apply H.
Qed.

(** ** The labels in double precision *)












(** C9.  Every division the annotation evaluates has a bar height above 0
    as its dividend (and the total count as its divisor): no division is
    evaluated for a bar of height 0.  So on a chart whose bars all have
    height 0 the routine evaluates no division and completes, writing empty
    labels, whatever the total count, 0 included. *)
Theorem zero_bars_not_divided :
  (forall (ax : Axes) (total_count : Z),
     Forall (fun e => (0 < fst e)%Q /\ snd e = total_count /\
                      In (fst e) (List.concat (containers ax)))
            (divisions (add_bar_labels ax total_count))) /\
  (forall (ax : Axes) (total_count : Z),
     Forall (Forall (fun h => (h == 0)%Q)) (containers ax) ->
     divisions (add_bar_labels ax total_count) = [] /\
     exists ax',
       outcome (add_bar_labels ax total_count) = Some ax' /\
       texts ax' =
       texts ax ++ map (map (fun _ => ""%string)) (containers ax)) /\
  (forall ax : Axes,
     Forall (Forall (fun h => (h == 0)%Q)) (containers ax) ->
     divisions (add_bar_labels ax 0) = [] /\
     outcome (add_bar_labels ax 0) <> None).
Proof.
  assert (Hdiv : forall ax total_count,
             Forall (Forall (fun h => (h == 0)%Q)) (containers ax) ->
             divisions (add_bar_labels ax total_count) = []).
  { intros ax total_count Hz.
    pose proof (annotate_divisions total_count (containers ax) ax) as H.
    fold (add_bar_labels ax total_count) in H.
    destruct (divisions (add_bar_labels ax total_count)) as [|e l];
      [reflexivity|].
    exfalso. inversion H as [|? ? [Hpos [_ Hin]] _]; subst.
    apply in_concat in Hin. destruct Hin as [c [Hc Hin]].
    rewrite Forall_forall in Hz. specialize (Hz c Hc).
    rewrite Forall_forall in Hz. specialize (Hz (fst e) Hin). lra. }
  assert (Hflat : forall ax,
             Forall (Forall (fun h => (h == 0)%Q)) (containers ax) ->
             Forall (Forall (fun h => (h <= 0)%Q)) (containers ax)).
  { intros ax Hz. eapply Forall_impl; [|exact Hz].
    intros c Hc. eapply Forall_impl; [|exact Hc].
    intros h Hh. simpl in Hh. lra. }
  split; [|split].
  - intros ax total_count. apply annotate_divisions.
  - intros ax total_count Hz. split; [now apply Hdiv|].
    eexists. split; [apply add_bar_labels_flat; now apply Hflat|].
    reflexivity.
  - intros ax Hz. split; [now apply Hdiv|].
    rewrite add_bar_labels_flat by now apply Hflat. discriminate.
Qed.

Lemma zero_bars_not_divided_witness :
  divisions (add_bar_labels (mkAxes [[0%Q; 0%Q]; [0%Q]] []) 0) = [] /\
  outcome (add_bar_labels (mkAxes [[0%Q; 0%Q]; [0%Q]] []) 0) <> None.
Proof.
  apply (proj2 (proj2 zero_bars_not_divided)). simpl.
  repeat constructor.
Defined.

(** ** The call sites of the annotation *)

Lemma mapM_completes {A B : Type} (f : A -> run B) (l : list A) :
  (forall x, In x l -> outcome (f x) <> None) -> outcome (mapM f l) <> None.
Proof.
  induction l as [|x l IH]; intro H; [discriminate|]. simpl.
  destruct (outcome (f x)) as [y|] eqn:Hx;
    [|exfalso; apply (H x); [now left | assumption]].
  rewrite (bind_outcome _ _ y Hx).
  destruct (outcome (mapM f l)) as [ys|] eqn:Hl.
  - rewrite (bind_outcome _ _ ys Hl). discriminate.
  - exfalso. apply IH; [|reflexivity]. intros z Hz. apply H. now right.
Qed.

Lemma total_passengers_len (view : DataFrame) :
  total_passengers (kpi view) = len view.
Proof. reflexivity. Qed.

Lemma filter_nil_iff {A : Type} (p : A -> bool) (l : list A) :
  filter p l = [] <-> forall x, In x l -> p x = false.
Proof.
  induction l as [|x l IH]; simpl.
  - split; [intros _ y [] | reflexivity].
  - destruct (p x) eqn:Hx; split.
    + discriminate.
    + intro H. specialize (H x (or_introl eq_refl)). congruence.
    + intros H y [<- | Hy]; [assumption | now apply IH].
    + intro H. apply IH. intros y Hy. apply H. now right.
Qed.

(** C7, as the code has it.  The three call sites pass the count of the
    filtered view without a test.  The annotation is called with a total
    count of 0 at each of them exactly when the view is empty, that is when
    the selection allows no row of the table, and with a total count above
    0 exactly when the view is not empty: the caller does not keep a total
    of 0 away. *)
Theorem bar_label_call_sites
    (countplot : DataFrame -> xcolumn -> list (list Q))
    (df : DataFrame) (sel : selection) :
  exists view,
    filtered_df df sel = Some view /\
    map snd (bar_label_calls countplot view) = [len view; len view; len view] /\
    (Forall (fun call => snd call = 0) (bar_label_calls countplot view) <->
     view = []) /\
    (Forall (fun call => 0 < snd call) (bar_label_calls countplot view) <->
     view <> []) /\
    (view = [] <-> forall r, In r df -> allowed sel r = false).
Proof.
  exists (rows_allowed df sel). split; [apply filtered_df_filter|].
  split; [reflexivity|].
  set (view := rows_allowed df sel).
  assert (Hlen : len view = 0 <-> view = []).
  { unfold len. destruct view; simpl; split; intro H;
      try reflexivity; try discriminate; lia. }
  split; [|split].
  - split.
    + intro H. inversion H as [|? ? H0 _]. apply Hlen. exact H0.
    + intro H. apply Hlen in H. unfold bar_label_calls.
      rewrite total_passengers_len. repeat constructor; exact H.
  - split.
    + intros H E. inversion H as [|? ? H0 _].
      change (0 < len view) in H0. apply Hlen in E. lia.
    + intro H. apply len_pos in H. unfold bar_label_calls.
      rewrite total_passengers_len. repeat constructor; exact H.
  - apply filter_nil_iff.
Qed.

(** C7, as the claim states it, fails: with the gender widget emptied the
    view of the example table is empty and the annotation is called three
    times with a total count of 0. *)
Lemma bar_labels_called_with_zero :
  filtered_df example_df no_gender = Some [] /\
  map snd (bar_label_calls count_bars []) = [0; 0; 0] /\
  ~ Forall (fun call => 0 < snd call) (bar_label_calls count_bars []).
Proof.
  split; [reflexivity|]. split; [reflexivity|].
  intro H. inversion H as [|? ? Hpos _]. discriminate Hpos.
Qed.

(** ** The table is not written *)

Lemma deref_alloc (st : state) (view : DataFrame) (ref : nat) (t : DataFrame) :
  deref st ref = Some t -> nth_error (heap st ++ [view]) ref = Some t.
Proof.
  unfold deref. intro H. rewrite nth_error_app1; [assumption|].
  apply nth_error_Some. congruence.
Qed.

Lemma deref_fresh (st : state) (view : DataFrame) :
  nth_error (heap st ++ [view]) (List.length (heap st)) = Some view.
Proof.
  rewrite nth_error_app2 by apply Nat.le_refl.
  now rewrite Nat.sub_diag.
Qed.

(** C8.  A rerun of the filter and of the metrics from a state in which
    [df] is bound to a table completes; it binds [filtered_df] to a new
    table, the filtered view, and stores the metrics of that view; [df] is
    still bound to the same object, which holds the same rows, and so does
    every table that existed before. *)
Theorem rerun_keeps_df (sel : selection) (st : state) (d : DataFrame) :
  deref st (df_ref st) = Some d ->
  exists st' view,
    rerun sel st = Some st' /\
    filtered_df d sel = Some view /\
    filtered_df_ref st' = Some (List.length (heap st)) /\
    deref st' (List.length (heap st)) = Some view /\
    kpis st' = Some (kpi view) /\
    df_ref st' = df_ref st /\
    deref st' (df_ref st') = Some d /\
    forall ref t, deref st ref = Some t -> deref st' ref = Some t.
Proof.
  intro Hd. unfold rerun, apply_filters. rewrite Hd.
  rewrite filtered_df_filter. unfold compute_kpis, deref at 1.
  cbn [filtered_df_ref heap]. rewrite deref_fresh.
  eexists. exists (rows_allowed d sel).
  split; [reflexivity|]. unfold deref. cbn [heap df_ref filtered_df_ref kpis].
  repeat split.
  - apply deref_fresh.
  - now apply deref_alloc.
  - intros ref t. apply deref_alloc.
Qed.

Lemma rerun_keeps_df_witness :
  exists st' view,
    rerun first_class_only (loaded example_df) = Some st' /\
    filtered_df example_df first_class_only = Some view /\
    filtered_df_ref st' = Some 1%nat /\
    deref st' 1 = Some view /\
    kpis st' = Some (kpi view) /\
    df_ref st' = 0%nat /\
    deref st' (df_ref st') = Some example_df /\
    forall ref t,
      deref (loaded example_df) ref = Some t -> deref st' ref = Some t.
Proof.
  exact (rerun_keeps_df first_class_only (loaded example_df) example_df
           eq_refl).
Defined.

(** * Further properties of the script *)

(** ** The options of the widgets (lines 46-62) *)

Lemma unique_acc_NoDup {A : Type} (eqb : A -> A -> bool)
    (eqb_eq : forall a b, eqb a b = true <-> a = b) (s seen : list A) :
  NoDup seen -> NoDup (unique_acc eqb seen s).
Proof.
  revert seen. induction s as [|x s IH]; intros seen Hseen; simpl.
  - now apply NoDup_rev.
  - destruct (member eqb x seen) eqn:Hm; [now apply IH|].
    apply IH. constructor; [|assumption].
    intro Hin. apply (member_In eqb eqb_eq) in Hin. congruence.
Qed.

Lemma unique_NoDup {A : Type} (eqb : A -> A -> bool)
    (eqb_eq : forall a b, eqb a b = true <-> a = b) (s : list A) :
  NoDup (unique eqb s).
Proof. apply unique_acc_NoDup; [assumption | constructor]. Qed.

Lemma insert_sorted_perm (x : Z) (l : list Z) :
  Permutation (x :: l) (insert_sorted x l).
Proof.
  induction l as [|y l IH]; simpl; [reflexivity|].
  destruct (x <=? y); [reflexivity|].
  rewrite perm_swap. now constructor.
Qed.

Lemma sorted_perm (l : list Z) : Permutation l (sorted l).
Proof.
  induction l as [|x l IH]; simpl; [constructor|].
  rewrite <- insert_sorted_perm. now constructor.
Qed.

Lemma insert_sorted_Sorted (x : Z) (l : list Z) :
  Sorted Z.le l -> Sorted Z.le (insert_sorted x l).
Proof.
  induction l as [|y l IH]; intro Hl; simpl.
  - repeat constructor.
  - destruct (x <=? y) eqn:E.
    + apply Z.leb_le in E. constructor; [assumption | now constructor].
    + apply Z.leb_gt in E. inversion Hl as [|? ? Hl' Hhd]; subst.
      constructor; [now apply IH|].
      destruct l as [|z l]; simpl.
      * constructor. lia.
      * inversion Hhd; subst. destruct (x <=? z); constructor; lia.
Qed.

Lemma sorted_Sorted (l : list Z) : Sorted Z.le (sorted l).
Proof.
  induction l as [|x l IH]; simpl; [constructor|].
  now apply insert_sorted_Sorted.
Qed.

(** X1.  The options each widget offers, which are also its default, list
    every value that occurs in the column, and nothing else, exactly once;
    the classes come in ascending order. *)
Theorem default_selection_options (df : DataFrame) :
  (forall g, In g (gender_filter (default_selection df)) <->
             exists r, In r df /\ sex r = g) /\
  (forall c, In c (class_filter (default_selection df)) <->
             exists r, In r df /\ pclass r = c) /\
  (forall e, In e (embark_filter (default_selection df)) <->
             exists r, In r df /\ embark_town r = e) /\
  NoDup (gender_filter (default_selection df)) /\
  NoDup (class_filter (default_selection df)) /\
  NoDup (embark_filter (default_selection df)) /\
  Sorted Z.le (class_filter (default_selection df)).
Proof.
  assert (Hcol : forall (A : Type) (f : passenger -> A) (v : A),
             In v (column f df) <-> exists r, In r df /\ f r = v).
  { intros A f v. unfold column. rewrite in_map_iff.
    split; intros [r [H1 H2]]; exists r; tauto. }
  simpl. repeat split.
  - rewrite (unique_In cell_eqb cell_eqb_eq). apply Hcol.
  - rewrite (unique_In cell_eqb cell_eqb_eq). apply Hcol.
  - rewrite sorted_In, (unique_In Z.eqb Z.eqb_eq). apply Hcol.
  - rewrite sorted_In, (unique_In Z.eqb Z.eqb_eq). apply Hcol.
  - rewrite (unique_In cell_eqb cell_eqb_eq). apply Hcol.
  - rewrite (unique_In cell_eqb cell_eqb_eq). apply Hcol.
  - apply (unique_NoDup cell_eqb cell_eqb_eq).
  - eapply Permutation_NoDup; [apply sorted_perm|].
    apply (unique_NoDup Z.eqb Z.eqb_eq).
  - apply (unique_NoDup cell_eqb cell_eqb_eq).
  - apply sorted_Sorted.
Qed.

(** ** How the filter composes (lines 65-69) *)

Lemma allowed_ext (s1 s2 : selection) :
  (forall g, In g (gender_filter s1) <-> In g (gender_filter s2)) ->
  (forall c, In c (class_filter s1) <-> In c (class_filter s2)) ->
  (forall e, In e (embark_filter s1) <-> In e (embark_filter s2)) ->
  forall r, allowed s1 r = allowed s2 r.
Proof.
  intros Hg Hc He r. apply eq_true_iff_eq.
  rewrite !allowed_spec, Hg, Hc, He. tauto.
Qed.

(** X2.  The view depends on the widgets' values as sets only: two
    selections that allow the same values, in whatever order and with
    whatever repetition, give the same view. *)
Theorem filtered_df_same_members (df : DataFrame) (s1 s2 : selection) :
  (forall g, In g (gender_filter s1) <-> In g (gender_filter s2)) ->
  (forall c, In c (class_filter s1) <-> In c (class_filter s2)) ->
  (forall e, In e (embark_filter s1) <-> In e (embark_filter s2)) ->
  filtered_df df s1 = filtered_df df s2.
Proof.
  intros Hg Hc He. rewrite !filtered_df_filter. f_equal.
  unfold rows_allowed. apply filter_ext. now apply allowed_ext.
Qed.

Lemma filtered_df_same_members_witness :
  filtered_df example_df upper_classes
  = filtered_df example_df upper_classes_shuffled /\
  filtered_df example_df upper_classes
  = Some [ row "male" 1 "Southampton" 1;
           row "female" 1 "Cherbourg" 1;
           row "female" 2 "Queenstown" 0 ].
Proof.
  split; [|reflexivity].
  apply filtered_df_same_members; simpl; intro; tauto.
Defined.

Lemma filter_narrow {A : Type} (p q : A -> bool) (l : list A) :
  (forall x, p x = true -> q x = true) ->
  filter p (filter q l) = filter p l.
Proof.
  intro H. induction l as [|x l IH]; [reflexivity|]. simpl.
  destruct (q x) eqn:Hq; simpl.
  - now rewrite IH.
  - destruct (p x) eqn:Hp; [|assumption].
    apply H in Hp. congruence.
Qed.

(** X3.  Filtering a view again gives what filtering the table would: when
    a selection allows no more than another one, applying it to the view of
    the other gives its own view of the table.  In particular filtering a
    view with its own selection changes nothing. *)
Theorem filtered_df_narrow (df : DataFrame) (s1 s2 : selection)
    (view2 : DataFrame) :
  incl (gender_filter s1) (gender_filter s2) ->
  incl (class_filter s1) (class_filter s2) ->
  incl (embark_filter s1) (embark_filter s2) ->
  filtered_df df s2 = Some view2 ->
  filtered_df view2 s1 = filtered_df df s1 /\
  filtered_df view2 s2 = Some view2.
Proof.
  intros Hg Hc He Hview. rewrite filtered_df_filter in Hview.
  inversion Hview; subst view2. rewrite !filtered_df_filter.
  unfold rows_allowed. split; f_equal.
  - apply filter_narrow. intros r Hr. apply allowed_spec in Hr.
    apply allowed_spec. destruct Hr as [H1 [H2 H3]].
    repeat split; [now apply Hg | now apply Hc | now apply He].
  - now apply filter_narrow.
Qed.

Lemma filtered_df_narrow_witness :
  (filtered_df (rows_allowed example_df upper_classes) upper_class_women
   = filtered_df example_df upper_class_women /\
   filtered_df (rows_allowed example_df upper_classes) upper_classes
   = Some (rows_allowed example_df upper_classes)) /\
  List.length (rows_allowed example_df upper_classes) = 3%nat /\
  filtered_df example_df upper_class_women
  = Some [ row "female" 1 "Cherbourg" 1; row "female" 2 "Queenstown" 0 ].
Proof.
  split; [|split; reflexivity].
  apply (filtered_df_narrow example_df upper_class_women upper_classes).
  - intros g [<- | []]. simpl. tauto.
  - apply incl_refl.
  - intros e [<- | [<- | []]]; simpl; tauto.
  - reflexivity.
Defined.

(** X4.  A widget left with no value selected, whichever of the three,
    gives an empty view, hence a count of 0 and the three other metrics at
    0. *)
Theorem filtered_df_nothing_selected (df : DataFrame) (sel : selection) :
  gender_filter sel = [] \/ class_filter sel = [] \/ embark_filter sel = [] ->
  filtered_df df sel = Some [] /\
  kpi (rows_allowed df sel) = mkMetrics 0 (Val 0) (Val 0) (Val 0).
Proof.
  intro H.
  assert (Hnone : rows_allowed df sel = []).
  { unfold rows_allowed. induction df as [|r df IH]; [reflexivity|]. simpl.
    destruct (allowed sel r) eqn:Hr; [|assumption].
    apply allowed_spec in Hr. destruct Hr as [H1 [H2 H3]].
    destruct H as [E | [E | E]]; rewrite E in *; contradiction. }
  rewrite filtered_df_filter, Hnone. split; reflexivity.
Qed.

Lemma filtered_df_nothing_selected_witness :
  filtered_df example_df (mkSelection [Some "male"%string] [] [None]) = Some [] /\
  kpi (rows_allowed example_df (mkSelection [Some "male"%string] [] [None]))
  = mkMetrics 0 (Val 0) (Val 0) (Val 0).
Proof.
  apply filtered_df_nothing_selected. right. left. reflexivity.
Defined.

(** X5.  Whether a row is kept depends on that row alone: the view of two
    tables put end to end is the view of the first followed by the view of
    the second, and the counts add up. *)
Theorem filtered_df_app (df1 df2 : DataFrame) (sel : selection) :
  exists view1 view2,
    filtered_df df1 sel = Some view1 /\
    filtered_df df2 sel = Some view2 /\
    filtered_df (df1 ++ df2) sel = Some (view1 ++ view2) /\
    total_passengers (kpi (view1 ++ view2)) =
    total_passengers (kpi view1) + total_passengers (kpi view2).
Proof.
  exists (rows_allowed df1 sel), (rows_allowed df2 sel).
  rewrite !filtered_df_filter. repeat split.
  - unfold rows_allowed. now rewrite filter_app.
  - rewrite !total_passengers_len. unfold len. rewrite length_app. lia.
Qed.

(** ** When a metric is NaN (lines 80-83) *)

Lemma dropna_nil_absent (s : list (option Q)) :
  dropna s = [] -> forall c, In c s -> c = None.
Proof.
  induction s as [|[q|] s IH]; simpl; intros H c Hc.
  - contradiction.
  - discriminate.
  - destruct Hc as [<- | Hc]; [reflexivity | now apply IH].
Qed.

Lemma avg_nan_iff (f : passenger -> option Q) (view : DataFrame) :
  (if 0 <? len view then mean (column f view) else Val 0) = NaN <->
  view <> [] /\ forall r, In r view -> f r = None.
Proof.
  split.
  - destruct view as [|r0 view'] eqn:E; [discriminate|].
    rewrite <- E. intro H.
    assert (Hne : view <> []) by (rewrite E; discriminate).
    split; [assumption|].
    pose proof (len_pos view Hne) as Hlen. apply Z.ltb_lt in Hlen.
    rewrite Hlen in H. unfold mean in H.
    destruct (dropna (column f view)) eqn:Hd; [|discriminate].
    intros r Hr. apply (dropna_nil_absent _ Hd).
    unfold column. now apply in_map.
  - intros [Hne Hall]. now apply avg_all_absent.
Qed.

(** X6.  The survival rate is never NaN, whatever the table holds.  The
    average age is NaN exactly when the view is not empty and no row of it
    has an age; the same holds of the average fare. *)
Theorem kpi_nan (view : DataFrame) :
  survival_rate (kpi view) <> NaN /\
  (avg_age (kpi view) = NaN <->
   view <> [] /\ forall r, In r view -> age r = None) /\
  (avg_fare (kpi view) = NaN <->
   view <> [] /\ forall r, In r view -> fare r = None).
Proof.
  split; [|split].
  - destruct view as [|r0 view'] eqn:E; [discriminate|]. rewrite <- E.
    assert (Hne : view <> []) by (rewrite E; discriminate).
    rewrite (kpi_nonempty view Hne). simpl.
    rewrite mean_present; [discriminate|].
    rewrite dropna_as_float, E. discriminate.
  - apply (avg_nan_iff age).
  - apply (avg_nan_iff fare).
Qed.

(** ** The rows behind the two density curves (lines 149-150) *)

Lemma getitem_mask_map (p : passenger -> bool) (view : DataFrame) :
  getitem_mask view (map p view) = Some (filter p view).
Proof.
  induction view as [|r view IH]; [reflexivity|]. simpl. now rewrite IH.
Qed.

Lemma density_rows_filter (view : DataFrame) (k : Z) :
  density_rows view k = Some (filter (fun r => survived r =? k) view).
Proof.
  unfold density_rows, series_eq, column. rewrite map_map.
  apply getitem_mask_map.
Qed.

Lemma Zsum_survivors (view : DataFrame) :
  (forall r, In r view -> survived r = 0 \/ survived r = 1) ->
  Zsum (column survived view) = len (filter (fun r => survived r =? 1) view) /\
  len (filter (fun r => survived r =? 0) view)
  + len (filter (fun r => survived r =? 1) view) = len view.
Proof.
  unfold len. induction view as [|r view IH]; intro H; [split; reflexivity|].
  destruct IH as [IH1 IH2]; [intros x Hx; apply H; now right|].
  unfold column in *. cbn [map Zsum fold_right filter]. fold (Zsum (map survived view)).
  rewrite IH1.
  destruct (H r (or_introl eq_refl)) as [E | E]; rewrite E;
    cbn [Z.eqb Pos.eqb List.length]; rewrite ?Nat2Z.inj_succ; split; lia.
Qed.

(** X7.  On a view whose [survived] cells are 0 or 1, the rows of the two
    density curves split the view: every row of the first has
    [survived = 0], every row of the second [survived = 1], and their
    numbers add up to the count.  When the view is not empty the survival
    rate is the share of the second group, times 100. *)
Theorem density_rows_split (view : DataFrame) :
  (forall r, In r view -> survived r = 0 \/ survived r = 1) ->
  exists died lived,
    density_rows view 0 = Some died /\
    density_rows view 1 = Some lived /\
    (forall r, In r died <-> In r view /\ survived r = 0) /\
    (forall r, In r lived <-> In r view /\ survived r = 1) /\
    len died + len lived = total_passengers (kpi view) /\
    (view <> [] ->
     number_eq (survival_rate (kpi view))
       (inject_Z (len lived) / inject_Z (len view) * 100)).
Proof.
  intro H01. destruct (Zsum_survivors view H01) as [Hsum Hlen].
  exists (filter (fun r => survived r =? 0) view),
         (filter (fun r => survived r =? 1) view).
  split; [apply density_rows_filter|].
  split; [apply density_rows_filter|].
  split; [intro r; rewrite filter_In, Z.eqb_eq; tauto|].
  split; [intro r; rewrite filter_In, Z.eqb_eq; tauto|].
  split; [exact Hlen|].
  intro Hne. rewrite (kpi_nonempty view Hne). simpl.
  assert (Hcol : dropna (as_float (column survived view)) <> []).
  { rewrite dropna_as_float. destruct view; [congruence | discriminate]. }
  rewrite (mean_present _ Hcol), dropna_as_float. simpl.
  rewrite Qsum_inject_Z, Hsum. unfold len, column.
  rewrite !length_map. reflexivity.
Qed.

Lemma density_rows_split_witness :
  exists died lived,
    density_rows example_df 0 = Some died /\
    density_rows example_df 1 = Some lived /\
    (forall r, In r died <-> In r example_df /\ survived r = 0) /\
    (forall r, In r lived <-> In r example_df /\ survived r = 1) /\
    len died + len lived = total_passengers (kpi example_df) /\
    (example_df <> [] ->
     number_eq (survival_rate (kpi example_df))
       (inject_Z (len lived) / inject_Z (len example_df) * 100)).
Proof.
  apply density_rows_split.
  intros r [<- | [<- | [<- | [<- | []]]]]; simpl; auto.
Defined.

(** ** More on the annotation (lines 25-39) *)

Lemma bind_run {A B : Type} (m : run A) (f : A -> run B) (a : A) :
  outcome m = Some a ->
  bind m f = mkRun (divisions m ++ divisions (f a)) (outcome (f a)).
Proof. unfold bind. now intros ->. Qed.

Lemma expected_label_visible (total_count : Z) (h : Q) :
  (0 < h)%Q -> expected_label total_count h <> ""%string.
Proof.
  intro H. apply Qltb_lt in H. unfold expected_label. rewrite H.
  unfold newline. destruct (str (int h)); discriminate.
Qed.

(** X8.  When the total count is not 0, a bar gets a visible text exactly
    when its height is above 0: its label is the empty string if and only
    if the height is at most 0. *)
Theorem bar_label_hidden (total_count : Z) (datavalues : list Q)
    (labels : list string) (i : nat) (h : Q) :
  total_count <> 0 ->
  outcome (container_labels total_count datavalues) = Some labels ->
  nth_error datavalues i = Some h ->
  (nth_error labels i = Some ""%string <-> (h <= 0)%Q).
Proof.
  intros Hnz Hrun Hi. rewrite (container_labels_outcome _ _ Hnz) in Hrun.
  inversion Hrun; subst labels. rewrite nth_error_map, Hi. simpl. split.
  - intro H. destruct (Qlt_le_dec 0 h) as [Hpos | Hle]; [|assumption].
    exfalso. apply (expected_label_visible total_count h Hpos). congruence.
  - intro H. unfold expected_label. now rewrite (Qltb_zero h H).
Qed.

Lemma bar_label_hidden_witness :
  nth_error [""; "5" ++ newline ++ "(62.5%)"; "3" ++ newline ++ "(37.5%)"]%string 0
  = Some ""%string <-> (0 <= 0)%Q.
Proof.
  apply (bar_label_hidden 8 [0%Q; 5%Q; 3%Q]); [discriminate | | ]; reflexivity.
Defined.

Lemma bar_text_divisions_exact (total_count : Z) (h : Q) :
  divisions (bar_text total_count h) =
  if Qltb 0 h then [(h, total_count)] else [].
Proof.
  unfold bar_text. destruct (Qltb 0 h); [|reflexivity].
  unfold bind, true_div. simpl. destruct (total_count =? 0); reflexivity.
Qed.

Lemma container_labels_divisions_exact (total_count : Z) (c : list Q) :
  total_count <> 0 ->
  divisions (container_labels total_count c) =
  map (fun h => (h, total_count)) (filter (Qltb 0) c).
Proof.
  intro Hnz. unfold container_labels.
  induction c as [|h c IH]; [reflexivity|]. simpl mapM.
  rewrite (bind_run _ _ _ (bar_text_outcome total_count h Hnz)).
  pose proof (container_labels_outcome total_count c Hnz) as Hc.
  unfold container_labels in Hc.
  rewrite (bind_run _ _ _ Hc). simpl divisions.
  rewrite IH, bar_text_divisions_exact, app_nil_r. simpl filter.
  destruct (Qltb 0 h); reflexivity.
Qed.

Lemma annotate_divisions_exact (total_count : Z) (todo : list (list Q))
    (ax : Axes) :
  total_count <> 0 ->
  divisions (annotate total_count todo ax) =
  map (fun h => (h, total_count)) (filter (Qltb 0) (List.concat todo)).
Proof.
  intro Hnz. revert ax. induction todo as [|c todo IH]; intro ax;
    [reflexivity|].
  simpl annotate.
  rewrite (bind_run _ _ _ (container_labels_outcome total_count c Hnz)).
  simpl divisions. rewrite IH, container_labels_divisions_exact by assumption.
  simpl List.concat. now rewrite filter_app, map_app.
Qed.

(** X9.  When the total count is not 0 the annotation never fails, and it
    evaluates exactly one division per bar of height above 0, in the order
    of the bars, each by the total count. *)
Theorem add_bar_labels_divides_once (ax : Axes) (total_count : Z) :
  total_count <> 0 ->
  outcome (add_bar_labels ax total_count) <> None /\
  divisions (add_bar_labels ax total_count) =
  map (fun h => (h, total_count))
      (filter (Qltb 0) (List.concat (containers ax))).
Proof.
  intro Hnz. split.
  - rewrite (add_bar_labels_outcome ax total_count Hnz). discriminate.
  - now apply annotate_divisions_exact.
Qed.

Lemma add_bar_labels_divides_once_witness :
  outcome (add_bar_labels (mkAxes [[0%Q; 5%Q]; [3%Q]] []) 8) <> None /\
  divisions (add_bar_labels (mkAxes [[0%Q; 5%Q]; [3%Q]] []) 8) =
  [(5%Q, 8); (3%Q, 8)].
Proof.
  apply (add_bar_labels_divides_once (mkAxes [[0%Q; 5%Q]; [3%Q]] []) 8).
  discriminate.
Defined.










(** ** Rendering and rerunning *)



Lemma rerun_result (sel : selection) (st : state) (d : DataFrame) :
  deref st (df_ref st) = Some d ->
  rerun sel st =
  Some {| heap := heap st ++ [rows_allowed d sel];
          df_ref := df_ref st;
          filtered_df_ref := Some (List.length (heap st));
          kpis := Some (kpi (rows_allowed d sel)) |}.
Proof.
  intro Hd. unfold rerun, apply_filters. rewrite Hd, filtered_df_filter.
  unfold compute_kpis, deref. cbn [filtered_df_ref heap df_ref kpis].
  now rewrite deref_fresh.
Qed.

(** X14.  Filters do not pile up from one rerun to the next: after a rerun
    with one selection and then a rerun with another, [filtered_df] is
    bound to the view of the whole table under the second selection, the
    metrics are those of that view, and [df] still holds the table. *)
Theorem rerun_again (sel1 sel2 : selection) (st : state) (d : DataFrame) :
  deref st (df_ref st) = Some d ->
  exists st1 st2 view2 ref,
    rerun sel1 st = Some st1 /\
    rerun sel2 st1 = Some st2 /\
    filtered_df d sel2 = Some view2 /\
    filtered_df_ref st2 = Some ref /\
    deref st2 ref = Some view2 /\
    kpis st2 = Some (kpi view2) /\
    deref st2 (df_ref st2) = Some d.
Proof.
  intro Hd.
  pose proof (rerun_result sel1 st d Hd) as H1.
  match type of H1 with _ = Some ?s => set (st1 := s) in * end.
  assert (Hd1 : deref st1 (df_ref st1) = Some d).
  { unfold deref, st1. cbn [heap df_ref]. now apply deref_alloc. }
  pose proof (rerun_result sel2 st1 d Hd1) as H2.
  match type of H2 with _ = Some ?s => set (st2 := s) in * end.
  exists st1, st2, (rows_allowed d sel2), (List.length (heap st1)).
  split; [exact H1|]. split; [exact H2|].
  split; [apply filtered_df_filter|]. split; [reflexivity|].
  split; [unfold deref, st2; cbn [heap]; apply deref_fresh|].
  split; [reflexivity|].
  unfold deref, st2. cbn [heap df_ref]. now apply deref_alloc.
Qed.

Lemma rerun_again_witness :
  exists st1 st2 view2 ref,
    rerun no_gender (loaded example_df) = Some st1 /\
    rerun first_class_only st1 = Some st2 /\
    filtered_df example_df first_class_only = Some view2 /\
    filtered_df_ref st2 = Some ref /\
    deref st2 ref = Some view2 /\
    kpis st2 = Some (kpi view2) /\
    deref st2 (df_ref st2) = Some example_df.
Proof.
  exact (rerun_again no_gender first_class_only (loaded example_df)
           example_df eq_refl).
Defined.
